(** * Gemini Image Enhancer: the editing session of [src/App.tsx]

    A shallow embedding of the React component [App] and of its helper
    [ProgressBar].  The component state (six [useState] cells) is a record;
    an event handler is a task: a sequence of state-setter calls that may
    suspend on one of the two external promises ([fileToBase64],
    [enhanceImage]) and continue with its outcome.  A handler reads the
    values captured by the render that created it, so every handler takes
    that render's state as its first argument and writes through setters. *)

From Stdlib Require Import List Bool Arith NArith String Ascii Lia PrimFloat.
Import ListNotations.

Local Open Scope list_scope.

(** ** JavaScript strings *)

Module JS.

(** A JavaScript string is a sequence of UTF-16 code units. *)
Definition jsstring := list N.

Definition lit (s : string) : jsstring :=
  map N_of_ascii (list_ascii_of_string s).

(** Code units removed by [String.prototype.trim]: the WhiteSpace and
    LineTerminator productions of ECMAScript. *)
Definition isWhiteSpace (c : N) : bool :=
  (  (9 <=? c) && (c <=? 13)
  || (c =? 32) || (c =? 160) || (c =? 5760)
  || ((8192 <=? c) && (c <=? 8202))
  || (c =? 8232) || (c =? 8233) || (c =? 8239) || (c =? 8287)
  || (c =? 12288) || (c =? 65279))%N.

Fixpoint trimStart (s : jsstring) : jsstring :=
  match s with
  | [] => []
  | c :: r => if isWhiteSpace c then trimStart r else s
  end.

Definition trimEnd (s : jsstring) : jsstring := rev (trimStart (rev s)).

Definition trim (s : jsstring) : jsstring := trimEnd (trimStart s).

(** Truthiness of a [string] value: only the empty string is falsy. *)
Definition truthyStr (s : jsstring) : bool :=
  match s with [] => false | _ :: _ => true end.

(** Truthiness of a [string | null] value. *)
Definition truthy (v : option jsstring) : bool :=
  match v with None => false | Some s => truthyStr s end.

(** [a || b] on [string | null] operands. *)
Definition or (a b : option jsstring) : option jsstring :=
  if truthy a then a else b.

End JS.

Import JS.

(** ** Preset catalog *)

Record Filter := mkFilter {
  id : jsstring;
  name : jsstring;
  prompt : jsstring
}.

Definition FILTERS : list Filter := [
  mkFilter (lit "enhance") (lit "Auto Enhance")
    (lit "Professionally enhance this image with balanced brightness, contrast, and color saturation. Make it look crisp and clear.");
  mkFilter (lit "sharpen") (lit "Sharpen")
    (lit "Increase the sharpness and clarity of this image. Bring out the fine details without creating artifacts.");
  mkFilter (lit "color_pop") (lit "Color Pop")
    (lit "Make the colors in this image more vibrant and saturated. Enhance the overall color pop, especially in the main subject.");
  mkFilter (lit "vintage") (lit "Vintage")
    (lit "Apply a vintage film look to this image. Add a slight grain, desaturate the colors a bit, and give it a warm, nostalgic feel.");
  mkFilter (lit "grayscale") (lit "Grayscale")
    (lit "Convert this image to a high-contrast black and white.")
].

(** ** Component state of [App] *)

Record State := mkState {
  originalImage : option jsstring;
  enhancedImage : option jsstring;
  isLoading : bool;
  error : option jsstring;
  customPrompt : jsstring;
  activeFilter : option jsstring
}.

(** The values of the six [useState] calls at mount. *)
Definition initialState : State :=
  mkState None None false None [] None.

Definition setOriginalImage (v : option jsstring) (s : State) : State :=
  mkState v (enhancedImage s) (isLoading s) (error s) (customPrompt s) (activeFilter s).

Definition setEnhancedImage (v : option jsstring) (s : State) : State :=
  mkState (originalImage s) v (isLoading s) (error s) (customPrompt s) (activeFilter s).

Definition setIsLoading (v : bool) (s : State) : State :=
  mkState (originalImage s) (enhancedImage s) v (error s) (customPrompt s) (activeFilter s).

Definition setError (v : option jsstring) (s : State) : State :=
  mkState (originalImage s) (enhancedImage s) (isLoading s) v (customPrompt s) (activeFilter s).

Definition setCustomPrompt (v : jsstring) (s : State) : State :=
  mkState (originalImage s) (enhancedImage s) (isLoading s) (error s) v (activeFilter s).

Definition setActiveFilter (v : option jsstring) (s : State) : State :=
  mkState (originalImage s) (enhancedImage s) (isLoading s) (error s) (customPrompt s) v.

(** ** Asynchronous handlers *)

(** The browser [File] object handed to [handleImageUpload]; the component
    only passes it on to [fileToBase64]. *)
Inductive File := FileHandle (n : N).

(** The two awaited calls. *)
Inductive Request :=
| fileToBase64 (file : File)
| enhanceImage (sourceImage prompt : jsstring).

(** How an awaited promise settles: with a string, or by throwing an error
    whose [message] is kept. *)
Inductive Outcome :=
| Resolved (value : jsstring)
| Rejected (message : jsstring).

Inductive Task :=
| Ret
| SetState (f : State -> State) (k : Task)
| Await (r : Request) (k : Outcome -> Task).

Declare Scope task_scope.
Delimit Scope task_scope with task.
Notation "f ;; k" := (SetState f k)
  (at level 100, k at level 200, right associativity) : task_scope.
Notation "'await' r 'as' x 'in' k" := (Await r (fun x => k))
  (at level 10, x name, k at level 200) : task_scope.
Local Open Scope task_scope.

Definition handleImageUpload (file : File) : Task :=
  setIsLoading true ;;
  setError None ;;
  setOriginalImage None ;;
  setEnhancedImage None ;;
  await fileToBase64 file as r in
  match r with
  | Resolved base64 =>
      setOriginalImage (Some base64) ;;
      setIsLoading false ;; Ret
  | Rejected _ =>
      setError (Some (lit "Failed to load image. Please try again.")) ;;
      setIsLoading false ;; Ret
  end.

(** [enhancedImage || originalImage] *)
Definition sourceImage (s : State) : option jsstring :=
  JS.or (enhancedImage s) (originalImage s).

(** [snap] is the render whose [originalImage] and [enhancedImage] the
    callback closed over. *)
Definition runEnhancement (snap : State) (prompt : jsstring) : Task :=
  match sourceImage snap with
  | None => Ret
  | Some src =>
      if negb (truthyStr src) then Ret
      else
        setIsLoading true ;;
        setError None ;;
        await enhanceImage src prompt as r in
        match r with
        | Resolved result =>
            setEnhancedImage (Some result) ;;
            setIsLoading false ;; Ret
        | Rejected message =>
            setError (Some (lit "Enhancement failed: " ++ message)) ;;
            setIsLoading false ;; Ret
        end
  end.

Definition handleFilterClick (snap : State) (filter : Filter) : Task :=
  setActiveFilter (Some (id filter)) ;;
  setCustomPrompt [] ;;
  runEnhancement snap (prompt filter).

Definition handleCustomEnhance (snap : State) : Task :=
  if truthyStr (trim (customPrompt snap)) then
    setActiveFilter None ;;
    runEnhancement snap (customPrompt snap)
  else Ret.

Definition handleReset : Task :=
  setOriginalImage None ;;
  setEnhancedImage None ;;
  setError None ;;
  setCustomPrompt [] ;;
  setActiveFilter None ;; Ret.

Definition handleRevert : Task :=
  setEnhancedImage None ;;
  setError None ;;
  setActiveFilter None ;;
  setCustomPrompt [] ;; Ret.

(** ** Running a task *)

(** [exec env t s] runs [t] from state [s] to completion with nothing
    interleaved; [env] settles each awaited call.  The second component
    lists the calls made, in order. *)
Fixpoint exec (env : Request -> Outcome) (t : Task) (s : State)
  : State * list Request :=
  match t with
  | Ret => (s, [])
  | SetState f k => exec env k (f s)
  | Await r k =>
      let (s', calls) := exec env (k (env r)) s in (s', r :: calls)
  end.

(** [dispatch t s] runs the synchronous prefix of [t]: up to its first
    [await], or to its end.  It returns the state the next render sees and,
    when the task suspended, the call in flight with its continuation. *)
Fixpoint dispatch (t : Task) (s : State)
  : State * option (Request * (Outcome -> Task)) :=
  match t with
  | Ret => (s, None)
  | SetState f k => dispatch k (f s)
  | Await r k => (s, Some (r, k))
  end.

(** The call a task has in flight after its synchronous prefix. *)
Definition inFlight (t : Task) (s : State) : option Request :=
  match snd (dispatch t s) with
  | Some (r, _) => Some r
  | None => None
  end.

(** ** What the rendered page lets the user do *)

(** The events wired in the JSX of [App] and [ImageUploader] that reach a
    state-changing handler.  A preset button is named by its position in
    [FILTERS]. *)
Inductive Event :=
| Drop (file : File)
| FileChange (file : File)
| ClickFilter (i : nat)
| ChangePrompt (text : jsstring)
| SubmitForm
| ClickReset
| ClickRevert.

(** Whether the control behind an event is rendered and not [disabled] in
    the render of state [s].  The uploader is rendered when
    [!originalImage], everything else when [originalImage]. *)
Definition enabled (s : State) (ev : Event) : bool :=
  match ev with
  | Drop _ => negb (truthy (originalImage s))
  | FileChange _ => negb (truthy (originalImage s)) && negb (isLoading s)
  | ClickFilter i =>
      truthy (originalImage s) && negb (isLoading s)
      && match nth_error FILTERS i with Some _ => true | None => false end
  | ChangePrompt _ => truthy (originalImage s) && negb (isLoading s)
  | SubmitForm =>
      truthy (originalImage s)
      && negb (isLoading s || negb (truthyStr (trim (customPrompt s))))
  | ClickReset => truthy (originalImage s) && negb (isLoading s)
  | ClickRevert =>
      truthy (originalImage s)
      && negb (negb (truthy (enhancedImage s)) || isLoading s)
  end.

Definition handler (s : State) (ev : Event) : Task :=
  match ev with
  | Drop file => handleImageUpload file
  | FileChange file => handleImageUpload file
  | ClickFilter i =>
      match nth_error FILTERS i with
      | Some filter => handleFilterClick s filter
      | None => Ret
      end
  | ChangePrompt text => setCustomPrompt text ;; Ret
  | SubmitForm => handleCustomEnhance s
  | ClickReset => handleReset
  | ClickRevert => handleRevert
  end.

(** The task an event starts in the render of [s]: none when its control
    is absent or disabled. *)
Definition onEvent (s : State) (ev : Event) : Task :=
  if enabled s ev then handler s ev else Ret.

(** The two events that ask for a transformation. *)
Definition isTransformation (ev : Event) : bool :=
  match ev with
  | ClickFilter _ | SubmitForm => true
  | _ => false
  end.

(** ** Progress bar *)

Module ProgressBar.

Local Open Scope float_scope.
Local Set Warnings "-inexact-float".

(** [progress] is the [useState] cell; [interval] tells whether the timer
    created by the effect is still armed. *)
Record PB := mkPB {
  progress : float;
  interval : bool
}.

(** State at mount, before the first effect. *)
Definition mount : PB := mkPB 0 false.

(** The updater passed to [setProgress] by the timer callback, with the
    [clearInterval] it performs. *)
Definition update (prev : float) : PB :=
  if 95 <=? prev then mkPB 95 false
  else
    let diff := (100 - prev) * 0.1 in
    mkPB (prev + diff) true.

(** One period of the 200 ms timer. *)
Definition tick (pb : PB) : PB :=
  if interval pb then update (progress pb) else pb.

(** The effect run when [isLoading] changes to the given value; the
    cleanup of the previous effect has disarmed its timer. *)
Definition effect (isLoading : bool) (pb : PB) : PB :=
  if isLoading then mkPB 0 true else mkPB 100 false.

Fixpoint ticks (n : nat) (pb : PB) : PB :=
  match n with
  | O => pb
  | S m => tick (ticks m pb)
  end.

(** The bar [n] timer periods after loading started. *)
Definition loading (n : nat) (pb : PB) : PB := ticks n (effect true pb).

End ProgressBar.

(** ** Chained edits *)

(** One transformation requested by the user: a preset, or a text typed
    into the prompt field and submitted. *)
Inductive Edit :=
| Preset (filter : Filter)
| Custom (text : jsstring).

Definition applyEdit (env : Request -> Outcome) (s : State) (e : Edit)
  : State :=
  match e with
  | Preset filter => fst (exec env (handleFilterClick s filter) s)
  | Custom text =>
      let typed := setCustomPrompt text s in
      fst (exec env (handleCustomEnhance typed) typed)
  end.

Definition applyEdits (env : Request -> Outcome) (s : State)
  (edits : list Edit) : State :=
  fold_left (applyEdit env) edits s.

(** ** Interleaving *)

(** A call in flight, with what its handler does once it settles. *)
Definition Suspended : Type := Request * (Outcome -> Task).

(** The page between two events: the state last rendered and the calls
    that have not settled yet, oldest first. *)
Record Page := mkPage {
  shown : State;
  awaiting : list Suspended
}.

Definition mounted : Page := mkPage initialState [].

(** What can happen next: the user acts on the page, or the [i]-th
    outstanding call settles. *)
Inductive Action :=
| User (ev : Event)
| Settle (i : nat) (o : Outcome).

(** Run a task up to its first [await] and render. *)
Definition start (t : Task) (pg : Page) : Page :=
  let (s', susp) := dispatch t (shown pg) in
  mkPage s'
    (awaiting pg ++ match susp with Some c => [c] | None => [] end).

Definition dropNth {A} (i : nat) (l : list A) : list A :=
  firstn i l ++ skipn (S i) l.

Definition act (pg : Page) (a : Action) : Page :=
  match a with
  | User ev => start (onEvent (shown pg) ev) pg
  | Settle i o =>
      match nth_error (awaiting pg) i with
      | Some (_, k) => start (k o) (mkPage (shown pg) (dropNth i (awaiting pg)))
      | None => pg
      end
  end.

Definition play (pg : Page) (actions : list Action) : Page :=
  fold_left act actions pg.

(** A file dropped on the upload area while a call is outstanding: the one
    user action the page does not disable during loading. *)
Definition dropsWhileLoading (pg : Page) (a : Action) : bool :=
  match a with
  | User (Drop _) => isLoading (shown pg)
  | _ => false
  end.

(** No action of the list is a drop during loading. *)
Fixpoint calm (pg : Page) (actions : list Action) : bool :=
  match actions with
  | [] => true
  | a :: rest => negb (dropsWhileLoading pg a) && calm (act pg a) rest
  end.

(** A suspended call whose continuation, however the call settles, runs to
    its end without another [await] and leaves [isLoading] false. *)
Definition finishes (c : Suspended) : Prop :=
  forall o s,
    snd (dispatch (snd c o) s) = None /\
    isLoading (fst (dispatch (snd c o) s)) = false.

(** At most one call is outstanding, and [isLoading] tells whether one
    is. *)
Definition singleFlight (pg : Page) : Prop :=
  match awaiting pg with
  | [] => isLoading (shown pg) = false
  | [c] => isLoading (shown pg) = true /\ finishes c
  | _ :: _ :: _ => False
  end.

(** ** The uploader's file lists *)

(** [e.dataTransfer.files] and [e.target.files]: a list of files, or null
    for the file input.  Both callbacks of [ImageUploader] hand the first
    file, if any, to [onImageUpload]. *)
Definition handleDrop (onImageUpload : File -> Task)
  (files : option (list File)) : Task :=
  match files with
  | Some (file :: _) => onImageUpload file
  | _ => Ret
  end.

Definition handleFileChange (onImageUpload : File -> Task)
  (files : option (list File)) : Task :=
  match files with
  | Some (file :: _) => onImageUpload file
  | _ => Ret
  end.

(** ** What is rendered *)

(** [a === b] on strings. *)
Fixpoint strictEq (a b : jsstring) : bool :=
  match a, b with
  | [], [] => true
  | x :: a', y :: b' => N.eqb x y && strictEq a' b'
  | _, _ => false
  end.

(** [activeFilter === filter.id], which selects the highlighted class of a
    preset button. *)
Definition highlighted (s : State) (filter : Filter) : bool :=
  match activeFilter s with
  | Some a => strictEq a (id filter)
  | None => false
  end.

(** What the "After" pane of [ImageViewer] holds, in document order. *)
Inductive AfterItem :=
| ProgressOverlay
| EnhancedImg (src : jsstring)
| Placeholder.

Definition afterPane (enhancedImage : option jsstring) (isLoading : bool)
  : list AfterItem :=
  (if isLoading then [ProgressOverlay] else [])
  ++ match enhancedImage with
     | Some src => if truthyStr src then [EnhancedImg src] else []
     | None => []
     end
  ++ (if negb (truthy enhancedImage) && negb isLoading
      then [Placeholder] else []).

(** ** Download *)

(** The part of the document [handleDownload] touches: the children of
    [document.body] by node identity, the identity [createElement] gives
    out next, and the downloads started so far, each with the address and
    the file name of the clicked link. *)
Record Document := mkDocument {
  body : list nat;
  nextNode : nat;
  downloads : list (jsstring * jsstring)
}.

Definition removeChild (node : nat) (children : list nat) : list nat :=
  remove Nat.eq_dec node children.

Definition handleDownload (s : State) (doc : Document) : Document :=
  match enhancedImage s with
  | None => doc
  | Some image =>
      if negb (truthyStr image) then doc
      else
        let link := nextNode doc in
        let href := image in
        let download := lit "enhanced-image.png" in
        let appended := body doc ++ [link] in
        mkDocument (removeChild link appended) (S (nextNode doc))
          (downloads doc ++ [(href, download)])
  end.

(** The Download button is rendered with the editor and carries
    [disabled={!enhancedImage || isLoading}]. *)
Definition downloadEnabled (s : State) : bool :=
  truthy (originalImage s)
  && negb (negb (truthy (enhancedImage s)) || isLoading s).

(** Every child of the body was created before the next node. *)
Definition wellFormed (doc : Document) : Prop :=
  Forall (fun node => node < nextNode doc) (body doc).

(** ** Orderly pages *)

(** A continuation that leaves a null [enhancedImage] null, and one that
    leaves [originalImage] as it finds it. *)
Definition keepsEnhancedNull (c : Suspended) : Prop :=
  forall o s, enhancedImage s = None ->
    enhancedImage (fst (dispatch (snd c o) s)) = None.

Definition keepsOriginal (c : Suspended) : Prop :=
  forall o s, originalImage (fst (dispatch (snd c o) s)) = originalImage s.

(** The shape of a page reached without a drop during loading. *)
Definition orderly (pg : Page) : Prop :=
  match awaiting pg with
  | [] =>
      isLoading (shown pg) = false /\
      (truthy (enhancedImage (shown pg)) = true ->
       truthy (originalImage (shown pg)) = true)
  | [c] =>
      isLoading (shown pg) = true /\ finishes c /\
      error (shown pg) = None /\
      match fst c with
      | fileToBase64 _ =>
          originalImage (shown pg) = None /\
          enhancedImage (shown pg) = None /\ keepsEnhancedNull c
      | enhanceImage src _ =>
          sourceImage (shown pg) = Some src /\
          truthy (originalImage (shown pg)) = true /\ keepsOriginal c
      end
  | _ :: _ :: _ => False
  end.

(** The shape of every page: each outstanding call will finish, and with
    none outstanding the page is not loading. *)
Definition unstuck (pg : Page) : Prop :=
  Forall finishes (awaiting pg) /\
  (awaiting pg = [] -> isLoading (shown pg) = false).

(** ** Sample sessions *)

Module Sample.

Definition imageA : jsstring := lit "data:image/png;base64,AAAA".
Definition imageB : jsstring := lit "data:image/png;base64,BBBB".
Definition imageC : jsstring := lit "data:image/png;base64,CCCC".

Definition photo : File := FileHandle 0.

(** An environment in which both external calls succeed, and one in which
    both fail. *)
Definition succeeds : Request -> Outcome := fun _ => Resolved imageC.
Definition fails : Request -> Outcome :=
  fun _ => Rejected (lit "quota exceeded").

Definition sharpen : Filter :=
  mkFilter (lit "sharpen") (lit "Sharpen")
    (lit "Increase the sharpness and clarity of this image. Bring out the fine details without creating artifacts.").

(** Image [A] just uploaded. *)
Definition fresh : State :=
  mkState (Some imageA) None false None [] None.

(** Image [A] sharpened into [B]. *)
Definition edited : State :=
  mkState (Some imageA) (Some imageB) false None [] (Some (lit "sharpen")).

(** A request outstanding on image [A], with a prompt in the draft. *)
Definition busy : State :=
  mkState (Some imageA) None true None (lit "add glow") None.


(** Upload [A], click "Sharpen", and the engine answers [B]; the same
    with the answer still out; and an upload that fails. *)
Definition sharpened : list Action :=
  [User (Drop photo); Settle 0 (Resolved imageA);
   User (ClickFilter 1); Settle 0 (Resolved imageB)].

Definition sharpening : list Action :=
  [User (Drop photo); Settle 0 (Resolved imageA); User (ClickFilter 1)].

Definition unreadable : list Action :=
  [User (Drop photo); Settle 0 (Rejected (lit "not an image"))].

Definition grayscale : Filter :=
  mkFilter (lit "grayscale") (lit "Grayscale")
    (lit "Convert this image to a high-contrast black and white.").

(** Two files dropped in a row: the first read gives [A] and "Sharpen" is
    clicked; then the second read gives [B]. *)
Definition overlapped : list Action :=
  [User (Drop (FileHandle 1)); User (Drop (FileHandle 2));
   Settle 0 (Resolved imageA); User (ClickFilter 1);
   Settle 0 (Resolved imageB)].

End Sample.

(** * Properties *)

(** ** Strings *)

Lemma trimStart_head (s : jsstring) :
  trimStart s = [] \/
  exists c r, trimStart s = c :: r /\ isWhiteSpace c = false.
Proof.
  induction s as [|c r IH]; simpl.
  - now left.
  - destruct (isWhiteSpace c) eqn:Hc; [exact IH|].
    right. now exists c, r.
Qed.

Lemma trimStart_nil (s : jsstring) :
  trimStart s = [] <-> forallb isWhiteSpace s = true.
Proof.
  induction s as [|c r IH]; simpl.
  - tauto.
  - destruct (isWhiteSpace c); simpl; [exact IH|].
    split; discriminate.
Qed.

Lemma forallb_rev {A} (f : A -> bool) (l : list A) :
  forallb f (rev l) = forallb f l.
Proof.
  induction l as [|a l IH]; simpl; [reflexivity|].
  rewrite forallb_app, IH. simpl.
  rewrite andb_true_r. apply andb_comm.
Qed.

(** [text.trim()] is the empty string exactly when every code unit of
    [text] is white space. *)
Lemma trim_nil (s : jsstring) :
  trim s = [] <-> forallb isWhiteSpace s = true.
Proof.
  unfold trim, trimEnd. split.
  - intros H.
    assert (Hr : trimStart (rev (trimStart s)) = []).
    { destruct (trimStart (rev (trimStart s))) as [|a l]; [reflexivity|].
      simpl in H. now destruct (rev l). }
    apply trimStart_nil in Hr. rewrite forallb_rev in Hr.
    destruct (trimStart_head s) as [E | (c & r & E & Hc)].
    + now apply trimStart_nil.
    + rewrite E in Hr. simpl in Hr. now rewrite Hc in Hr.
  - intros H. apply trimStart_nil in H. now rewrite H.
Qed.

Lemma truthyStr_false (s : jsstring) : truthyStr s = false <-> s = [].
Proof. destruct s; simpl; split; congruence. Qed.

Lemma truthy_Some (c : jsstring) : c <> [] -> truthy (Some c) = true.
Proof. now destruct c. Qed.

(** ** The task of [runEnhancement], by cases on the source image *)

Lemma runEnhancement_no_source (snap : State) (p : jsstring) :
  truthy (sourceImage snap) = false -> runEnhancement snap p = Ret.
Proof.
  unfold runEnhancement. destruct (sourceImage snap) as [[|c r]|]; simpl;
    congruence.
Qed.

Lemma runEnhancement_source (snap : State) (p src : jsstring) :
  sourceImage snap = Some src -> src <> [] ->
  runEnhancement snap p =
    (setIsLoading true ;;
     setError None ;;
     await enhanceImage src p as r in
     match r with
     | Resolved result =>
         setEnhancedImage (Some result) ;; setIsLoading false ;; Ret
     | Rejected message =>
         setError (Some (lit "Enhancement failed: " ++ message)) ;;
         setIsLoading false ;; Ret
     end).
Proof.
  intros E Hne. unfold runEnhancement. rewrite E.
  destruct src; [congruence | reflexivity].
Qed.

(** [runEnhancement] never writes [originalImage], [customPrompt] or
    [activeFilter]. *)
Lemma runEnhancement_frame env (snap : State) (p : jsstring) (s : State) :
  let s' := fst (exec env (runEnhancement snap p) s) in
  originalImage s' = originalImage s /\
  customPrompt s' = customPrompt s /\
  activeFilter s' = activeFilter s.
Proof.
  unfold runEnhancement.
  destruct (sourceImage snap) as [[|c r]|]; simpl; auto.
  destruct (env (enhanceImage (c :: r) p)); simpl; auto.
Qed.

Lemma applyEdit_original env (s : State) (e : Edit) :
  originalImage (applyEdit env s e) = originalImage s.
Proof.
  destruct e as [f | text]; simpl.
  - exact (proj1 (runEnhancement_frame env s (prompt f)
                    (setCustomPrompt [] (setActiveFilter (Some (id f)) s)))).
  - unfold handleCustomEnhance.
    destruct (truthyStr (trim (customPrompt (setCustomPrompt text s))));
      [|reflexivity].
    exact (proj1 (runEnhancement_frame env (setCustomPrompt text s) _
                    (setActiveFilter None (setCustomPrompt text s)))).
Qed.

Lemma applyEdits_original env (edits : list Edit) (s : State) :
  originalImage (applyEdits env s edits) = originalImage s.
Proof.
  unfold applyEdits. revert s.
  induction edits as [|e edits IH]; intros s; simpl; [reflexivity|].
  rewrite IH. apply applyEdit_original.
Qed.

(** ** Reset and revert *)

(** C9. From every state [handleReset] clears [originalImage],
    [enhancedImage], [error] and [activeFilter] (and the prompt draft),
    which is the empty session of the mount with the loading flag left as
    it was; it makes no external call, and a second reset changes nothing
    more. *)
Theorem handleReset_empty_idempotent env (s : State) :
  let s1 := fst (exec env handleReset s) in
  originalImage s1 = None /\ enhancedImage s1 = None /\
  error s1 = None /\ activeFilter s1 = None /\
  s1 = setIsLoading (isLoading s) initialState /\
  snd (exec env handleReset s) = [] /\
  fst (exec env handleReset s1) = s1.
Proof. simpl. repeat split. Qed.

(** C10. [handleRevert] and [handleReset] both set [customPrompt] to the
    empty string.  Apart from it, revert writes only [enhancedImage],
    [error] and [activeFilter], and reset only those and [originalImage]:
    the remaining cells ([originalImage] and [isLoading] for revert,
    [isLoading] for reset) keep their values. *)
Theorem revert_reset_clear_prompt_frame env (s : State) :
  fst (exec env handleRevert s) =
    mkState (originalImage s) None (isLoading s) None [] None /\
  fst (exec env handleReset s) =
    mkState None None (isLoading s) None [] None.
Proof. split; reflexivity. Qed.

(** C6. After any sequence of edits (preset or free text, whatever the
    engine answered), [handleRevert] leaves [enhancedImage], [error] and
    [activeFilter] null, keeps [originalImage] equal to the image the
    sequence started from, makes no external call, and the image a next
    edit would start from is that original. *)
Theorem handleRevert_restores_original env (s : State) (edits : list Edit) :
  let s' := applyEdits env s edits in
  let r := exec env handleRevert s' in
  enhancedImage (fst r) = None /\
  error (fst r) = None /\
  activeFilter (fst r) = None /\
  originalImage (fst r) = originalImage s /\
  snd r = [] /\
  sourceImage (fst r) = originalImage s.
Proof.
  simpl. unfold sourceImage. simpl.
  rewrite applyEdits_original. repeat split.
Qed.

(** ** Upload *)

(** The state an upload ends in is fixed by the outcome of
    [fileToBase64] and by the two cells the handler never writes. *)
Lemma handleImageUpload_exec env (file : File) (s : State) :
  exec env (handleImageUpload file) s =
    (match env (fileToBase64 file) with
     | Resolved base64 =>
         mkState (Some base64) None false None
           (customPrompt s) (activeFilter s)
     | Rejected _ =>
         mkState None None false
           (Some (lit "Failed to load image. Please try again."))
           (customPrompt s) (activeFilter s)
     end, [fileToBase64 file]).
Proof.
  simpl. destruct (env (fileToBase64 file)); reflexivity.
Qed.

(** The page offers an upload (file input or drop zone) only in a render
    without an original image. *)
Lemma upload_offered_without_original (s : State) (file : File) :
  (enabled s (Drop file) = true -> truthy (originalImage s) = false) /\
  (enabled s (FileChange file) = true -> truthy (originalImage s) = false).
Proof.
  unfold enabled. destruct (truthy (originalImage s)); simpl; auto.
Qed.







(** ** Transformations *)

(** C4. Whenever [runEnhancement] has a source image and the engine call
    rejects, the run ends with [enhancedImage] exactly as before the call,
    with [error] set to a non-empty string (the text
    ["Enhancement failed: "] followed by the engine's message) and with
    [isLoading] false; one engine call was made. *)
Theorem runEnhancement_failure env (s : State) (p src message : jsstring) :
  sourceImage s = Some src -> src <> [] ->
  env (enhanceImage src p) = Rejected message ->
  let r := exec env (runEnhancement s p) s in
  enhancedImage (fst r) = enhancedImage s /\
  error (fst r) = Some (lit "Enhancement failed: " ++ message) /\
  lit "Enhancement failed: " ++ message <> [] /\
  isLoading (fst r) = false /\
  originalImage (fst r) = originalImage s /\
  snd r = [enhanceImage src p].
Proof.
  intros E Hne Hrej.
  rewrite (runEnhancement_source s p src E Hne).
  simpl. rewrite Hrej. simpl.
  repeat split. discriminate.
Qed.

Lemma runEnhancement_failure_witness :
  enhancedImage
    (fst (exec Sample.fails (runEnhancement Sample.edited (lit "add glow"))
            Sample.edited)) = Some Sample.imageB /\
  error
    (fst (exec Sample.fails (runEnhancement Sample.edited (lit "add glow"))
            Sample.edited))
    = Some (lit "Enhancement failed: quota exceeded") /\
  isLoading
    (fst (exec Sample.fails (runEnhancement Sample.edited (lit "add glow"))
            Sample.edited)) = false.
Proof.
  destruct (runEnhancement_failure Sample.fails Sample.edited (lit "add glow")
              Sample.imageB (lit "quota exceeded")
              eq_refl ltac:(discriminate) eq_refl)
    as (H1 & H2 & _ & H4 & _).
  split; [exact H1 | split; [exact H2 | exact H4]].
Defined.

(** C5. An image counts as present when it is a non-empty string.  The
    call [runEnhancement] sends to the engine carries [enhancedImage] when
    that is present, and [originalImage] when [enhancedImage] is not
    present and [originalImage] is; it is the only call made.  When
    neither is present [runEnhancement] makes no call and leaves the state
    as it is. *)
Theorem runEnhancement_source_choice env (s : State) (p : jsstring) :
  (forall c, enhancedImage s = Some c -> c <> [] ->
     inFlight (runEnhancement s p) s = Some (enhanceImage c p) /\
     snd (exec env (runEnhancement s p) s) = [enhanceImage c p]) /\
  (forall o, truthy (enhancedImage s) = false ->
     originalImage s = Some o -> o <> [] ->
     inFlight (runEnhancement s p) s = Some (enhanceImage o p) /\
     snd (exec env (runEnhancement s p) s) = [enhanceImage o p]) /\
  (truthy (enhancedImage s) = false -> truthy (originalImage s) = false ->
     dispatch (runEnhancement s p) s = (s, None) /\
     exec env (runEnhancement s p) s = (s, [])).
Proof.
  split; [|split].
  - intros c E Hne.
    assert (Hs : sourceImage s = Some c).
    { unfold sourceImage, JS.or. rewrite E, (truthy_Some c Hne).
      reflexivity. }
    rewrite (runEnhancement_source s p c Hs Hne).
    unfold inFlight. simpl.
    destruct (env (enhanceImage c p)); auto.
  - intros o He E Hne.
    assert (Hs : sourceImage s = Some o).
    { unfold sourceImage, JS.or. now rewrite He. }
    rewrite (runEnhancement_source s p o Hs Hne).
    unfold inFlight. simpl.
    destruct (env (enhanceImage o p)); auto.
  - intros He Ho.
    assert (Hs : truthy (sourceImage s) = false).
    { unfold sourceImage, JS.or. now rewrite He. }
    rewrite (runEnhancement_no_source s p Hs). auto.
Qed.

Lemma runEnhancement_source_choice_witness :
  snd (exec Sample.succeeds (runEnhancement Sample.edited (lit "glow"))
         Sample.edited)
    = [enhanceImage Sample.imageB (lit "glow")] /\
  snd (exec Sample.succeeds (runEnhancement Sample.fresh (lit "glow"))
         Sample.fresh)
    = [enhanceImage Sample.imageA (lit "glow")] /\
  exec Sample.succeeds (runEnhancement initialState (lit "glow")) initialState
    = (initialState, []).
Proof.
  split; [|split].
  - exact (proj2 (proj1 (runEnhancement_source_choice Sample.succeeds
                           Sample.edited (lit "glow"))
                    Sample.imageB eq_refl ltac:(discriminate))).
  - exact (proj2 (proj1 (proj2
             (runEnhancement_source_choice Sample.succeeds Sample.fresh
                (lit "glow")))
                    Sample.imageA eq_refl eq_refl ltac:(discriminate))).
  - exact (proj2 (proj2 (proj2
             (runEnhancement_source_choice Sample.succeeds initialState
                (lit "glow")))
                    eq_refl eq_refl)).
Defined.

(** ** Requests that are turned away *)




(** ** While a request is outstanding *)

(** While [isLoading] is true the preset buttons and the submit button
    are disabled, so a transformation asked for through the page starts
    no task: the state is unchanged and no engine call is made.  The gate
    is on the controls, not in the handlers. *)
Theorem loading_disables_transformations env (s : State) (ev : Event) :
  isLoading s = true -> isTransformation ev = true ->
  onEvent s ev = Ret /\
  exec env (onEvent s ev) s = (s, []) /\
  inFlight (onEvent s ev) s = None.
Proof.
  intros Hl Hev.
  assert (E : onEvent s ev = Ret).
  { unfold onEvent, enabled.
    destruct ev; try discriminate Hev; rewrite Hl; simpl;
      now rewrite ?andb_false_r. }
  rewrite E. auto.
Qed.

Lemma loading_disables_transformations_witness :
  exec Sample.succeeds (onEvent Sample.busy (ClickFilter 1)) Sample.busy
    = (Sample.busy, []) /\
  exec Sample.succeeds (onEvent Sample.busy SubmitForm) Sample.busy
    = (Sample.busy, []).
Proof.
  split.
  - exact (proj1 (proj2 (loading_disables_transformations Sample.succeeds
                           Sample.busy (ClickFilter 1) eq_refl eq_refl))).
  - exact (proj1 (proj2 (loading_disables_transformations Sample.succeeds
                           Sample.busy SubmitForm eq_refl eq_refl))).
Defined.

(** [runEnhancement] called on a loading session that holds image [A]
    sends [A] to the engine and stores the answer. *)
Lemma runEnhancement_not_gated_on_isLoading :
  ~ (forall env s p, isLoading s = true ->
       let r := exec env (runEnhancement s p) s in
       enhancedImage (fst r) = enhancedImage s /\
       error (fst r) = error s /\
       snd r = []).
Proof.
  intros H.
  specialize (H Sample.succeeds Sample.busy (lit "add glow") eq_refl).
  cbv in H. destruct H as (_ & _ & H). discriminate H.
Qed.

(** ** One call at a time *)

(** While loading, every control but the drop zone is off. *)
Lemma loading_disables_controls (s : State) (ev : Event) :
  isLoading s = true ->
  match ev with Drop _ => True | _ => onEvent s ev = Ret end.
Proof.
  intros Hl. unfold onEvent, enabled.
  destruct ev; try exact I; rewrite Hl; simpl;
    now rewrite ?andb_false_r, ?orb_true_r, ?andb_false_r.
Qed.

(** Started from any render, [runEnhancement] either returns at once and
    leaves the state alone, or suspends on one engine call with
    [isLoading] true, to finish with [isLoading] false. *)
Lemma runEnhancement_dispatch (snap : State) (p : jsstring) (s : State) :
  dispatch (runEnhancement snap p) s = (s, None) \/
  exists c,
    snd (dispatch (runEnhancement snap p) s) = Some c /\
    isLoading (fst (dispatch (runEnhancement snap p) s)) = true /\
    finishes c.
Proof.
  unfold runEnhancement.
  destruct (sourceImage snap) as [[|a r]|]; simpl; auto.
  right. eexists. split; [reflexivity|]. split; [reflexivity|].
  intros o s0. destruct o; simpl; auto.
Qed.

(** The same for the task of any handler: it ends with [isLoading] as it
    found it, or suspends once with [isLoading] true. *)
Lemma handler_dispatch (snap : State) (ev : Event) (s : State) :
  (snd (dispatch (handler snap ev) s) = None /\
   isLoading (fst (dispatch (handler snap ev) s)) = isLoading s) \/
  exists c,
    snd (dispatch (handler snap ev) s) = Some c /\
    isLoading (fst (dispatch (handler snap ev) s)) = true /\
    finishes c.
Proof.
  assert (Hup : forall file,
    exists c,
      snd (dispatch (handleImageUpload file) s) = Some c /\
      isLoading (fst (dispatch (handleImageUpload file) s)) = true /\
      finishes c).
  { intros file. eexists. split; [reflexivity|]. split; [reflexivity|].
    intros o s0. destruct o; simpl; auto. }
  assert (Hrun : forall p s0, isLoading s0 = isLoading s ->
    (snd (dispatch (runEnhancement snap p) s0) = None /\
     isLoading (fst (dispatch (runEnhancement snap p) s0)) = isLoading s) \/
    exists c,
      snd (dispatch (runEnhancement snap p) s0) = Some c /\
      isLoading (fst (dispatch (runEnhancement snap p) s0)) = true /\
      finishes c).
  { intros p s0 E.
    destruct (runEnhancement_dispatch snap p s0) as [H | H]; [|now right].
    left. rewrite H. simpl. auto. }
  destruct ev as [file | file | i | text | | |]; simpl.
  - right. apply Hup.
  - right. apply Hup.
  - destruct (nth_error FILTERS i) as [filter|]; simpl; [|auto].
    apply Hrun. reflexivity.
  - auto.
  - unfold handleCustomEnhance.
    destruct (truthyStr (trim (customPrompt snap))); simpl; [|auto].
    apply Hrun. reflexivity.
  - auto.
  - auto.
Qed.

(** An action other than a drop during loading keeps the page in single
    flight. *)
Lemma act_singleFlight (pg : Page) (a : Action) :
  singleFlight pg -> dropsWhileLoading pg a = false ->
  singleFlight (act pg a).
Proof.
  destruct pg as [s q]. unfold singleFlight. simpl.
  intros Hinv Hcalm. destruct a as [ev | i o]; simpl.
  - destruct q as [|c [|c' q]]; [| |contradiction].
    + (* idle: whatever the event starts is the only call *)
      unfold start, onEvent. simpl.
      destruct (enabled s ev); [|simpl; exact Hinv].
      destruct (handler_dispatch s ev s) as [[H1 H2] | (c & H1 & H2 & H3)];
        destruct (dispatch (handler s ev) s) as [s' susp]; simpl in *;
        subst susp; simpl.
      * congruence.
      * auto.
    + (* loading: the event is turned away *)
      destruct Hinv as [Hl Hc].
      pose proof (loading_disables_controls s ev Hl) as Hoff.
      destruct ev; try (rewrite Hoff; unfold start; simpl; auto).
      simpl in Hcalm. congruence.
  - destruct q as [|c [|c' q]]; [| |contradiction].
    + destruct i; simpl; exact Hinv.
    + destruct Hinv as [Hl Hc].
      destruct i as [|i]; simpl.
      * destruct c as [r k]. unfold start, dropNth. simpl.
        destruct (Hc o s) as [H1 H2]. simpl in H1, H2.
        destruct (dispatch (k o) s) as [s' susp]; simpl in *.
        subst susp. simpl. exact H2.
      * destruct i; simpl; auto.
Qed.

(** As long as no file is dropped while a call is outstanding, at most
    one call is in flight after any sequence of actions, and [isLoading]
    is true exactly while it is. *)
Lemma play_singleFlight (actions : list Action) (pg : Page) :
  singleFlight pg -> calm pg actions = true ->
  singleFlight (play pg actions).
Proof.
  unfold play. revert pg.
  induction actions as [|a rest IH]; intros pg Hinv Hcalm; simpl;
    [exact Hinv|].
  simpl in Hcalm. apply andb_true_iff in Hcalm as [Ha Hrest].
  apply negb_true_iff in Ha.
  apply IH; [now apply act_singleFlight | exact Hrest].
Qed.

(** The drop zone stays live during loading, and through it two engine
    calls can be outstanding at once: two files are dropped in a row; the
    first read ends and a preset is clicked; the second read ends, which
    turns [isLoading] off with the engine call still out; a second preset
    click then sends another. *)
Lemma drop_while_loading_two_calls :
  let pg :=
    play mounted
      [User (Drop (FileHandle 1)); User (Drop (FileHandle 2));
       Settle 0 (Resolved Sample.imageA); User (ClickFilter 1);
       Settle 0 (Resolved Sample.imageB); User (ClickFilter 4)] in
  map fst (awaiting pg) =
    [enhanceImage Sample.imageA (prompt Sample.sharpen);
     enhanceImage Sample.imageB
       (lit "Convert this image to a high-contrast black and white.")].
Proof. vm_compute. reflexivity. Qed.

(** C1. The page does not keep to one transformation request in flight.
    The file input is disabled during loading but the drop zone around it
    is not, so a second file can be dropped while the first is read.
    When the first read has ended and "Sharpen" has been clicked, the end
    of the second read sets [isLoading] to false with the engine call
    for "Sharpen" still outstanding; the preset buttons are enabled
    again, and a click on "Grayscale" sends a second engine call while
    the first has not settled. *)
Theorem drop_during_loading_breaks_single_flight :
  calm mounted Sample.overlapped = false /\
  map fst (awaiting (play mounted Sample.overlapped))
    = [enhanceImage Sample.imageA (prompt Sample.sharpen)] /\
  isLoading (shown (play mounted Sample.overlapped)) = false /\
  enabled (shown (play mounted Sample.overlapped)) (ClickFilter 4) = true /\
  map fst
    (awaiting (act (play mounted Sample.overlapped) (User (ClickFilter 4))))
    = [enhanceImage Sample.imageA (prompt Sample.sharpen);
       enhanceImage Sample.imageB (prompt Sample.grayscale)] /\
  isLoading
    (shown (act (play mounted Sample.overlapped) (User (ClickFilter 4))))
    = true.
Proof.
  split; [vm_compute; reflexivity|].
  split; [vm_compute; reflexivity|].
  split; [vm_compute; reflexivity|].
  split; [vm_compute; reflexivity|].
  split; vm_compute; reflexivity.
Qed.

(** ** Successful and repeated transformations *)

Lemma sourceImage_truthy (s : State) (src : jsstring) :
  sourceImage s = Some src -> src <> [] -> truthy (sourceImage s) = true.
Proof. intros E Hne. rewrite E. now apply truthy_Some. Qed.

Lemma original_gives_source (s : State) :
  truthy (originalImage s) = true ->
  exists src, sourceImage s = Some src /\ src <> [].
Proof.
  intros Ho. unfold sourceImage, JS.or.
  destruct (enhancedImage s) as [[|a e]|]; simpl.
  - destruct (originalImage s) as [[|b o]|]; try discriminate Ho.
    eexists. split; [reflexivity | discriminate].
  - eexists. split; [reflexivity | discriminate].
  - destruct (originalImage s) as [[|b o]|]; try discriminate Ho.
    eexists. split; [reflexivity | discriminate].
Qed.

(** The state a transformation ends in is fixed by the engine's answer
    and by the cells [runEnhancement] never writes. *)
Lemma runEnhancement_exec env (s0 s : State) (p src : jsstring) :
  sourceImage s0 = Some src -> src <> [] ->
  exec env (runEnhancement s0 p) s =
    (match env (enhanceImage src p) with
     | Resolved result =>
         mkState (originalImage s) (Some result) false None
           (customPrompt s) (activeFilter s)
     | Rejected message =>
         mkState (originalImage s) (enhancedImage s) false
           (Some (lit "Enhancement failed: " ++ message))
           (customPrompt s) (activeFilter s)
     end, [enhanceImage src p]).
Proof.
  intros E Hne. rewrite (runEnhancement_source s0 p src E Hne). simpl.
  destruct (env (enhanceImage src p)); reflexivity.
Qed.

Lemma handleFilterClick_exec env (s : State) (filter : Filter)
    (src : jsstring) :
  sourceImage s = Some src -> src <> [] ->
  exec env (handleFilterClick s filter) s =
    (match env (enhanceImage src (prompt filter)) with
     | Resolved result =>
         mkState (originalImage s) (Some result) false None
           [] (Some (id filter))
     | Rejected message =>
         mkState (originalImage s) (enhancedImage s) false
           (Some (lit "Enhancement failed: " ++ message))
           [] (Some (id filter))
     end, [enhanceImage src (prompt filter)]).
Proof.
  intros E Hne. unfold handleFilterClick. simpl exec.
  rewrite (runEnhancement_exec env s _ (prompt filter) src E Hne).
  destruct (env (enhanceImage src (prompt filter))); reflexivity.
Qed.

Lemma handleCustomEnhance_exec env (s : State) (src : jsstring) :
  truthyStr (trim (customPrompt s)) = true ->
  sourceImage s = Some src -> src <> [] ->
  exec env (handleCustomEnhance s) s =
    (match env (enhanceImage src (customPrompt s)) with
     | Resolved result =>
         mkState (originalImage s) (Some result) false None
           (customPrompt s) None
     | Rejected message =>
         mkState (originalImage s) (enhancedImage s) false
           (Some (lit "Enhancement failed: " ++ message))
           (customPrompt s) None
     end, [enhanceImage src (customPrompt s)]).
Proof.
  intros Ht E Hne. unfold handleCustomEnhance. rewrite Ht. simpl exec.
  rewrite (runEnhancement_exec env s _ (customPrompt s) src E Hne).
  destruct (env (enhanceImage src (customPrompt s))); reflexivity.
Qed.

Lemma not_blank_trim (text : jsstring) :
  forallb isWhiteSpace text = false <-> truthyStr (trim text) = true.
Proof.
  split; intros H.
  - destruct (trim text) eqn:Et; [|reflexivity].
    apply trim_nil in Et. congruence.
  - destruct (forallb isWhiteSpace text) eqn:Hw; [|reflexivity].
    apply trim_nil in Hw. rewrite Hw in H. discriminate H.
Qed.

(** X1. When [runEnhancement] has a source image and the engine resolves
    with [result], the run ends with [enhancedImage] equal to [result],
    [error] null (whatever it held before) and [isLoading] false; the
    original, the prompt draft and the active filter are as before, and
    the single call made carried the source image and the prompt. *)
Theorem runEnhancement_success env (s : State) (p src result : jsstring) :
  sourceImage s = Some src -> src <> [] ->
  env (enhanceImage src p) = Resolved result ->
  exec env (runEnhancement s p) s =
    (mkState (originalImage s) (Some result) false None
       (customPrompt s) (activeFilter s),
     [enhanceImage src p]).
Proof.
  intros E Hne Hok.
  rewrite (runEnhancement_exec env s s p src E Hne), Hok. reflexivity.
Qed.

Lemma runEnhancement_success_witness :
  exec Sample.succeeds (runEnhancement Sample.edited (lit "add glow"))
    Sample.edited =
    (mkState (Some Sample.imageA) (Some Sample.imageC) false None []
       (Some (lit "sharpen")),
     [enhanceImage Sample.imageB (lit "add glow")]).
Proof.
  exact (runEnhancement_success Sample.succeeds Sample.edited (lit "add glow")
           Sample.imageB Sample.imageC eq_refl ltac:(discriminate) eq_refl).
Defined.

(** X2. Edits chain: after a transformation that succeeded with a
    non-empty [result], the next transformation sends [result] to the
    engine, not the original. *)
Theorem next_edit_starts_from_result env (s : State)
    (p1 p2 src result : jsstring) :
  sourceImage s = Some src -> src <> [] ->
  env (enhanceImage src p1) = Resolved result -> result <> [] ->
  let s1 := fst (exec env (runEnhancement s p1) s) in
  inFlight (runEnhancement s1 p2) s1 = Some (enhanceImage result p2).
Proof.
  intros E Hne Hok Hres s1. subst s1.
  rewrite (runEnhancement_exec env s s p1 src E Hne), Hok. simpl.
  rewrite (runEnhancement_source _ p2 result).
  - reflexivity.
  - unfold sourceImage, JS.or. simpl.
    destruct result; [congruence | reflexivity].
  - exact Hres.
Qed.

Lemma next_edit_starts_from_result_witness :
  inFlight
    (runEnhancement
       (fst (exec Sample.succeeds (runEnhancement Sample.fresh (lit "sharpen it"))
               Sample.fresh))
       (lit "add glow"))
    (fst (exec Sample.succeeds (runEnhancement Sample.fresh (lit "sharpen it"))
            Sample.fresh))
  = Some (enhanceImage Sample.imageC (lit "add glow")).
Proof.
  exact (next_edit_starts_from_result Sample.succeeds Sample.fresh
           (lit "sharpen it") (lit "add glow") Sample.imageA Sample.imageC
           eq_refl ltac:(discriminate) eq_refl ltac:(discriminate)).
Defined.

(** X3. An engine answer that is the empty string is stored in
    [enhancedImage] but counts as no image: the next transformation
    starts from the original again, the Revert button stays disabled,
    the "After" pane shows the placeholder, and a download does nothing. *)
Theorem empty_result_counts_as_none env (s : State) (p src : jsstring)
    (doc : Document) :
  sourceImage s = Some src -> src <> [] ->
  env (enhanceImage src p) = Resolved [] ->
  let s1 := fst (exec env (runEnhancement s p) s) in
  enhancedImage s1 = Some [] /\
  sourceImage s1 = originalImage s /\
  enabled s1 ClickRevert = false /\
  afterPane (enhancedImage s1) (isLoading s1) = [Placeholder] /\
  handleDownload s1 doc = doc.
Proof.
  intros E Hne Hok s1. subst s1.
  rewrite (runEnhancement_exec env s s p src E Hne), Hok. simpl.
  unfold enabled. simpl. rewrite andb_false_r. auto.
Qed.

Lemma empty_result_counts_as_none_witness :
  sourceImage
    (fst (exec (fun _ => Resolved []) (runEnhancement Sample.edited (lit "glow"))
            Sample.edited))
  = Some Sample.imageA.
Proof.
  exact (proj1 (proj2
    (empty_result_counts_as_none (fun _ => Resolved []) Sample.edited
       (lit "glow") Sample.imageB (mkDocument [] 0 [])
       eq_refl ltac:(discriminate) eq_refl))).
Defined.

(** X4. A failure costs nothing but the message: when a transformation
    fails and the same one is asked again, the retry sends the very same
    source image and prompt, and if it succeeds the session ends exactly
    as if the first attempt had succeeded, with [error] null again. *)
Theorem retry_after_failure env1 env2 (s : State)
    (p src message result : jsstring) :
  sourceImage s = Some src -> src <> [] ->
  env1 (enhanceImage src p) = Rejected message ->
  env2 (enhanceImage src p) = Resolved result ->
  let s1 := fst (exec env1 (runEnhancement s p) s) in
  error s1 = Some (lit "Enhancement failed: " ++ message) /\
  exec env2 (runEnhancement s1 p) s1 = exec env2 (runEnhancement s p) s.
Proof.
  intros E Hne Hrej Hok s1. subst s1.
  rewrite (runEnhancement_exec env1 s s p src E Hne), Hrej.
  rewrite (runEnhancement_exec env2 s s p src E Hne), Hok.
  simpl. split; [reflexivity|].
  rewrite (runEnhancement_exec env2 _ _ p src); [|exact E|exact Hne].
  rewrite Hok. reflexivity.
Qed.

Lemma retry_after_failure_witness :
  exec Sample.succeeds
    (runEnhancement
       (fst (exec Sample.fails (runEnhancement Sample.edited (lit "glow"))
               Sample.edited)) (lit "glow"))
    (fst (exec Sample.fails (runEnhancement Sample.edited (lit "glow"))
            Sample.edited))
  = exec Sample.succeeds (runEnhancement Sample.edited (lit "glow"))
      Sample.edited.
Proof.
  exact (proj2
    (retry_after_failure Sample.fails Sample.succeeds Sample.edited
       (lit "glow") Sample.imageB (lit "quota exceeded") Sample.imageC
       eq_refl ltac:(discriminate) eq_refl eq_refl)).
Defined.

(** X5. A preset click on a session with a source image sends that image
    with the preset's prompt to the engine, once.  Whatever the engine
    answers, the session ends with [activeFilter] equal to the preset's
    id, with the prompt draft empty, with the original untouched and not
    loading. *)
Theorem handleFilterClick_request env (s : State) (filter : Filter)
    (src : jsstring) :
  sourceImage s = Some src -> src <> [] ->
  let r := exec env (handleFilterClick s filter) s in
  snd r = [enhanceImage src (prompt filter)] /\
  activeFilter (fst r) = Some (id filter) /\
  customPrompt (fst r) = [] /\
  originalImage (fst r) = originalImage s /\
  isLoading (fst r) = false.
Proof.
  intros E Hne.
  rewrite (handleFilterClick_exec env s filter src E Hne).
  destruct (env (enhanceImage src (prompt filter))); simpl; auto.
Qed.

Lemma handleFilterClick_request_witness :
  snd (exec Sample.fails (handleFilterClick Sample.fresh Sample.sharpen)
         Sample.fresh)
    = [enhanceImage Sample.imageA (prompt Sample.sharpen)] /\
  activeFilter
    (fst (exec Sample.fails (handleFilterClick Sample.fresh Sample.sharpen)
            Sample.fresh)) = Some (lit "sharpen").
Proof.
  destruct (handleFilterClick_request Sample.fails Sample.fresh Sample.sharpen
              Sample.imageA eq_refl ltac:(discriminate))
    as (H1 & H2 & _).
  split; [exact H1 | exact H2].
Defined.

(** X6. A submitted prompt with at least one code unit that is not white
    space is sent to the engine as typed, leading and trailing white
    space included, together with the source image.  Whatever the engine
    answers, the session ends with [activeFilter] null and with the
    prompt draft still in the field. *)
Theorem handleCustomEnhance_request env (s : State) (src : jsstring) :
  forallb isWhiteSpace (customPrompt s) = false ->
  sourceImage s = Some src -> src <> [] ->
  let r := exec env (handleCustomEnhance s) s in
  snd r = [enhanceImage src (customPrompt s)] /\
  activeFilter (fst r) = None /\
  customPrompt (fst r) = customPrompt s /\
  originalImage (fst r) = originalImage s /\
  isLoading (fst r) = false.
Proof.
  intros Hws E Hne. apply not_blank_trim in Hws.
  rewrite (handleCustomEnhance_exec env s src Hws E Hne).
  destruct (env (enhanceImage src (customPrompt s))); simpl; auto.
Qed.

Lemma handleCustomEnhance_request_witness :
  snd (exec Sample.succeeds
         (handleCustomEnhance (setCustomPrompt (lit "  add glow ") Sample.edited))
         (setCustomPrompt (lit "  add glow ") Sample.edited))
    = [enhanceImage Sample.imageB (lit "  add glow ")].
Proof.
  exact (proj1
    (handleCustomEnhance_request Sample.succeeds
       (setCustomPrompt (lit "  add glow ") Sample.edited) Sample.imageB
       eq_refl eq_refl ltac:(discriminate))).
Defined.

(** ** Enabled controls *)

Lemma enabled_ClickFilter (s : State) (i : nat) :
  enabled s (ClickFilter i) = true ->
  truthy (originalImage s) = true /\ isLoading s = false /\
  exists filter, nth_error FILTERS i = Some filter.
Proof.
  unfold enabled. intros H.
  apply andb_true_iff in H as [H H3]. apply andb_true_iff in H as [H1 H2].
  apply negb_true_iff in H2.
  destruct (nth_error FILTERS i) as [filter|]; [|discriminate H3].
  eauto.
Qed.

Lemma enabled_SubmitForm (s : State) :
  enabled s SubmitForm = true ->
  truthy (originalImage s) = true /\ isLoading s = false /\
  truthyStr (trim (customPrompt s)) = true.
Proof.
  unfold enabled. intros H.
  apply andb_true_iff in H as [H1 H2]. apply negb_true_iff in H2.
  apply orb_false_iff in H2 as [H2 H3]. apply negb_false_iff in H3.
  auto.
Qed.

(** X7. An enabled preset button or Enhance button is never a dead
    control: the event it raises always puts one engine call in flight,
    carrying the current source image, with [isLoading] true and [error]
    null in the render that follows. *)
Theorem enabled_transformation_dispatches (s : State) (ev : Event) :
  enabled s ev = true -> isTransformation ev = true ->
  exists src p,
    sourceImage s = Some src /\ src <> [] /\
    inFlight (onEvent s ev) s = Some (enhanceImage src p) /\
    isLoading (fst (dispatch (onEvent s ev) s)) = true /\
    error (fst (dispatch (onEvent s ev) s)) = None.
Proof.
  intros Hen Hev. unfold onEvent. rewrite Hen.
  destruct ev as [| | i | | | |]; try discriminate Hev; simpl.
  - destruct (enabled_ClickFilter s i Hen) as (Ho & _ & filter & Hf).
    destruct (original_gives_source s Ho) as (src & E & Hne).
    exists src, (prompt filter). rewrite Hf. unfold handleFilterClick.
    rewrite (runEnhancement_source s (prompt filter) src E Hne).
    repeat split; assumption.
  - destruct (enabled_SubmitForm s Hen) as (Ho & _ & Ht).
    destruct (original_gives_source s Ho) as (src & E & Hne).
    exists src, (customPrompt s). unfold handleCustomEnhance. rewrite Ht.
    rewrite (runEnhancement_source s (customPrompt s) src E Hne).
    repeat split; assumption.
Qed.

Lemma enabled_transformation_dispatches_witness :
  exists src p,
    sourceImage Sample.edited = Some src /\ src <> [] /\
    inFlight (onEvent Sample.edited (ClickFilter 4)) Sample.edited
      = Some (enhanceImage src p) /\
    isLoading (fst (dispatch (onEvent Sample.edited (ClickFilter 4))
                      Sample.edited)) = true /\
    error (fst (dispatch (onEvent Sample.edited (ClickFilter 4))
                  Sample.edited)) = None.
Proof.
  exact (enabled_transformation_dispatches Sample.edited (ClickFilter 4)
           eq_refl eq_refl).
Defined.

(** X8. A transformation never locks the page: once the call started by
    an enabled preset or Enhance button has settled, with a result or
    with an error, that same button is enabled again. *)
Theorem transformation_control_reenabled env (s : State) (ev : Event) :
  enabled s ev = true -> isTransformation ev = true ->
  enabled (fst (exec env (onEvent s ev) s)) ev = true.
Proof.
  intros Hen Hev. unfold onEvent. rewrite Hen.
  destruct ev as [| | i | | | |]; try discriminate Hev; unfold handler.
  - destruct (enabled_ClickFilter s i Hen) as (Ho & _ & filter & Hf).
    destruct (original_gives_source s Ho) as (src & E & Hne).
    rewrite Hf.
    rewrite (handleFilterClick_exec env s filter src E Hne).
    unfold enabled.
    destruct (env (enhanceImage src (prompt filter))); simpl fst;
      cbn [originalImage isLoading]; rewrite Ho, Hf; reflexivity.
  - destruct (enabled_SubmitForm s Hen) as (Ho & _ & Ht).
    destruct (original_gives_source s Ho) as (src & E & Hne).
    rewrite (handleCustomEnhance_exec env s src Ht E Hne).
    unfold enabled.
    destruct (env (enhanceImage src (customPrompt s))); simpl fst;
      cbn [originalImage isLoading customPrompt]; rewrite Ho, Ht;
      reflexivity.
Qed.

Lemma transformation_control_reenabled_witness :
  enabled
    (fst (exec Sample.fails (onEvent Sample.fresh (ClickFilter 1))
            Sample.fresh))
    (ClickFilter 1) = true.
Proof.
  exact (transformation_control_reenabled Sample.fails Sample.fresh
           (ClickFilter 1) eq_refl eq_refl).
Defined.

(** ** Pages reached by any sequence of actions *)

Lemma In_dropNth {A} (i : nat) (l : list A) (x : A) :
  In x (dropNth i l) -> In x l.
Proof.
  revert i. induction l as [|a l IH]; intros i H.
  - unfold dropNth in H. now destruct i.
  - destruct i as [|i].
    + right. exact H.
    + unfold dropNth in H. simpl in H. destruct H as [H | H]; [now left|].
      right. apply (IH i). exact H.
Qed.

Lemma length_dropNth {A} (i : nat) (l : list A) (x : A) :
  nth_error l i = Some x -> S (List.length (dropNth i l)) = List.length l.
Proof.
  revert i. induction l as [|a l IH]; intros i H.
  - now destruct i.
  - destruct i as [|i]; [reflexivity|].
    unfold dropNth. simpl. f_equal. apply (IH i H).
Qed.

(** Settling a call that finishes turns [isLoading] off and starts no new
    call. *)
Lemma settle_finishes (s : State) (q : list Suspended) (i : nat)
    (r : Request) (k : Outcome -> Task) (o : Outcome) :
  nth_error q i = Some (r, k) -> finishes (r, k) ->
  isLoading (shown (act (mkPage s q) (Settle i o))) = false /\
  awaiting (act (mkPage s q) (Settle i o)) = dropNth i q.
Proof.
  intros En Hf. simpl. rewrite En. unfold start. simpl.
  destruct (Hf o s) as [H1 H2]. simpl in H1, H2.
  destruct (dispatch (k o) s) as [s' susp]; simpl in *. subst susp.
  rewrite app_nil_r. auto.
Qed.

Lemma act_unstuck (pg : Page) (a : Action) :
  unstuck pg -> unstuck (act pg a).
Proof.
  destruct pg as [s q]. unfold unstuck. simpl. intros [Hall Hidle].
  destruct a as [ev | i o].
  - unfold act, start, onEvent. simpl.
    destruct (enabled s ev).
    + destruct (handler_dispatch s ev s) as [[H1 H2] | (c & H1 & H2 & H3)];
        destruct (dispatch (handler s ev) s) as [s' susp]; simpl in *;
        subst susp; simpl.
      * rewrite app_nil_r. split; [exact Hall|].
        intros Hq. rewrite H2. now apply Hidle.
      * split.
        -- apply Forall_app. split; [exact Hall | now constructor].
        -- intros Hq. apply app_eq_nil in Hq as [_ Hq]. discriminate Hq.
    + simpl. rewrite app_nil_r. auto.
  - destruct (nth_error q i) as [[r k]|] eqn:En.
    + assert (Hf : finishes (r, k)).
      { rewrite Forall_forall in Hall. apply Hall.
        eapply nth_error_In. exact En. }
      destruct (settle_finishes s q i r k o En Hf) as [H1 H2].
      rewrite H1, H2. split; [|reflexivity].
      rewrite Forall_forall in *. intros x Hx. apply Hall.
      eapply In_dropNth. exact Hx.
    + simpl. rewrite En. simpl. auto.
Qed.

Lemma play_unstuck (actions : list Action) (pg : Page) :
  unstuck pg -> unstuck (play pg actions).
Proof.
  unfold play. revert pg.
  induction actions as [|a rest IH]; intros pg H; simpl; [exact H|].
  apply IH. now apply act_unstuck.
Qed.

Lemma mounted_unstuck : unstuck mounted.
Proof. split; [constructor | reflexivity]. Qed.

(** X9. Loading always ends.  After any sequence of user actions and
    settlements whatever, drops during loading included: if no call is
    outstanding, [isLoading] is false; and settling any outstanding call,
    with a result or an error, leaves [isLoading] false and only removes
    that call from those outstanding. *)
Theorem loading_always_ends (actions : list Action) :
  let pg := play mounted actions in
  (awaiting pg = [] -> isLoading (shown pg) = false) /\
  (forall i c o, nth_error (awaiting pg) i = Some c ->
     isLoading (shown (act pg (Settle i o))) = false /\
     S (List.length (awaiting (act pg (Settle i o)))) = List.length (awaiting pg)).
Proof.
  intros pg.
  destruct (play_unstuck actions mounted mounted_unstuck) as [Hall Hidle].
  fold pg in Hall, Hidle. split; [exact Hidle|].
  intros i [r k] o En.
  assert (Hf : finishes (r, k)).
  { rewrite Forall_forall in Hall. apply Hall.
    eapply nth_error_In. exact En. }
  destruct pg as [s q]. simpl in En.
  destruct (settle_finishes s q i r k o En Hf) as [H1 H2].
  rewrite H1, H2. split; [reflexivity|].
  simpl. eapply length_dropNth. exact En.
Qed.

Lemma loading_always_ends_witness :
  isLoading (shown (play mounted Sample.unreadable)) = false /\
  isLoading (shown (act (play mounted Sample.sharpening)
                      (Settle 0 (Rejected (lit "quota exceeded"))))) = false.
Proof.
  split.
  - exact (proj1 (loading_always_ends Sample.unreadable) eq_refl).
  - exact (proj1 (proj2 (loading_always_ends Sample.sharpening)
                    0%nat _ (Rejected (lit "quota exceeded")) eq_refl)).
Defined.

(** ** Pages reached without a drop during loading *)

Lemma idle_event_orderly (s : State) (ev : Event) :
  isLoading s = false ->
  (truthy (enhancedImage s) = true -> truthy (originalImage s) = true) ->
  orderly (start (onEvent s ev) (mkPage s [])).
Proof.
  intros Hl Hinv. unfold onEvent.
  destruct (enabled s ev) eqn:Hen; [|split; assumption].
  assert (Hup : forall file,
            orderly (start (handleImageUpload file) (mkPage s []))).
  { intros file. unfold orderly, start. simpl.
    split; [reflexivity|]. split.
    - intros o s0. destruct o; simpl; auto.
    - split; [reflexivity|]. split; [reflexivity|].
      split; [reflexivity|].
      intros o s0 H. destruct o; simpl; exact H. }
  assert (Hrun : forall p s0,
            truthy (originalImage s) = true ->
            originalImage s0 = originalImage s ->
            enhancedImage s0 = enhancedImage s ->
            orderly (mkPage (fst (dispatch (runEnhancement s p) s0))
                       (match snd (dispatch (runEnhancement s p) s0) with
                        | Some c => [c] | None => [] end))).
  { intros p s0 Ho Eo Ee.
    destruct (original_gives_source s Ho) as (src & E & Hne).
    rewrite (runEnhancement_source s p src E Hne).
    unfold orderly. simpl.
    split; [reflexivity|]. split.
    - intros o s1. destruct o; simpl; auto.
    - split; [reflexivity|]. split.
      + unfold sourceImage in *. simpl. now rewrite Eo, Ee.
      + split; [now rewrite Eo|].
        intros o s1. destruct o; reflexivity. }
  destruct ev as [file | file | i | text | | |]; unfold handler.
  - apply Hup.
  - apply Hup.
  - destruct (enabled_ClickFilter s i Hen) as (Ho & _ & filter & Hf).
    rewrite Hf. unfold handleFilterClick, start. simpl.
    specialize (Hrun (prompt filter)
                  (setCustomPrompt [] (setActiveFilter (Some (id filter)) s))
                  Ho eq_refl eq_refl).
    destruct (dispatch (runEnhancement s (prompt filter))
                (setCustomPrompt [] (setActiveFilter (Some (id filter)) s)))
      as [s' susp].
    exact Hrun.
  - unfold orderly, start. simpl. auto.
  - destruct (enabled_SubmitForm s Hen) as (Ho & _ & Ht).
    unfold handleCustomEnhance, start. rewrite Ht. simpl.
    specialize (Hrun (customPrompt s) (setActiveFilter None s) Ho
                  eq_refl eq_refl).
    destruct (dispatch (runEnhancement s (customPrompt s))
                (setActiveFilter None s)) as [s' susp].
    exact Hrun.
  - unfold orderly, start. simpl. split; [exact Hl | discriminate].
  - unfold orderly, start. simpl. split; [exact Hl | discriminate].
Qed.

Lemma act_orderly (pg : Page) (a : Action) :
  orderly pg -> dropsWhileLoading pg a = false -> orderly (act pg a).
Proof.
  destruct pg as [s q]. intros Hinv Hcalm.
  destruct q as [|c [|c' q]]; [| |contradiction].
  - destruct Hinv as [Hl Hi]. simpl in Hl, Hi.
    destruct a as [ev | i o].
    + apply idle_event_orderly; assumption.
    + simpl. destruct i; simpl; split; assumption.
  - destruct Hinv as (Hl & Hf & He & Hc). simpl in Hl, He, Hc.
    destruct a as [ev | i o].
    + pose proof (loading_disables_controls s ev Hl) as Hoff.
      destruct ev; simpl in Hcalm; try congruence;
        simpl; rewrite Hoff; unfold start; simpl;
        exact (conj Hl (conj Hf (conj He Hc))).
    + destruct i as [|i];
        [|destruct i; simpl; exact (conj Hl (conj Hf (conj He Hc)))].
      destruct c as [r k].
      destruct (Hf o s) as [F1 F2]. simpl in F1, F2.
      assert (Hi : truthy (enhancedImage (fst (dispatch (k o) s))) = true ->
                   truthy (originalImage (fst (dispatch (k o) s))) = true).
      { simpl in Hc. destruct r as [file | src p].
        - destruct Hc as (_ & Hn & Hk).
          pose proof (Hk o s Hn) as Hx. simpl in Hx.
          rewrite Hx. discriminate.
        - destruct Hc as (_ & Ho & Hk).
          pose proof (Hk o s) as Hx. simpl in Hx.
          intros _. rewrite Hx. exact Ho. }
      unfold orderly, act, start, dropNth. simpl.
      destruct (dispatch (k o) s) as [s' susp]. simpl in *.
      subst susp. simpl. split; assumption.
Qed.

Lemma play_orderly (actions : list Action) (pg : Page) :
  orderly pg -> calm pg actions = true -> orderly (play pg actions).
Proof.
  unfold play. revert pg.
  induction actions as [|a rest IH]; intros pg Hinv Hcalm; simpl;
    [exact Hinv|].
  simpl in Hcalm. apply andb_true_iff in Hcalm as [Ha Hrest].
  apply negb_true_iff in Ha.
  apply IH; [now apply act_orderly | exact Hrest].
Qed.

Lemma mounted_orderly : orderly mounted.
Proof. split; [reflexivity | discriminate]. Qed.

(** X10. As long as no file is dropped on the upload area while a call is
    outstanding, the page keeps at most one call in flight through any
    sequence of user actions and settlements, and [isLoading] is true
    exactly while that call is outstanding. *)
Theorem calm_single_flight (actions : list Action) :
  calm mounted actions = true ->
  let pg := play mounted actions in
  List.length (awaiting pg) <= 1 /\
  (isLoading (shown pg) = true <-> awaiting pg <> []).
Proof.
  intros Hcalm pg.
  pose proof (play_orderly actions mounted mounted_orderly Hcalm) as H.
  fold pg in H. unfold orderly in H.
  destruct (awaiting pg) as [|c [|c' q]]; [| |contradiction].
  - destruct H as [Hl _]. simpl. split; [lia|].
    rewrite Hl. split; [discriminate | congruence].
  - destruct H as [Hl _]. simpl. split; [lia|].
    rewrite Hl. split; [discriminate | reflexivity].
Qed.

Lemma calm_single_flight_witness :
  List.length (awaiting (play mounted Sample.sharpening)) <= 1 /\
  (isLoading (shown (play mounted Sample.sharpening)) = true <->
   awaiting (play mounted Sample.sharpening) <> []).
Proof.
  exact (calm_single_flight Sample.sharpening eq_refl).
Defined.

(** X11. Under the same condition the error message is never on screen
    during loading: whenever [isLoading] is true, [error] is null. *)
Theorem no_error_while_loading (actions : list Action) :
  calm mounted actions = true ->
  isLoading (shown (play mounted actions)) = true ->
  error (shown (play mounted actions)) = None.
Proof.
  intros Hcalm Hl.
  pose proof (play_orderly actions mounted mounted_orderly Hcalm) as H.
  unfold orderly in H.
  destruct (awaiting (play mounted actions)) as [|c [|c' q]];
    [| |contradiction].
  - destruct H as [H _]. congruence.
  - destruct H as (_ & _ & He & _). exact He.
Qed.

Lemma no_error_while_loading_witness :
  error (shown (play mounted
                  (Sample.unreadable ++ [User (Drop Sample.photo)]))) = None.
Proof.
  exact (no_error_while_loading
           (Sample.unreadable ++ [User (Drop Sample.photo)])
           eq_refl eq_refl).
Defined.

(** X12. Under the same condition a result never stands without its
    original: whenever [enhancedImage] holds an image, so does
    [originalImage], so the editor with its Revert and Download buttons
    is on screen. *)
Theorem result_has_original (actions : list Action) :
  calm mounted actions = true ->
  truthy (enhancedImage (shown (play mounted actions))) = true ->
  truthy (originalImage (shown (play mounted actions))) = true.
Proof.
  intros Hcalm He.
  pose proof (play_orderly actions mounted mounted_orderly Hcalm) as H.
  unfold orderly in H.
  destruct (awaiting (play mounted actions)) as [|c [|c' q]];
    [| |contradiction].
  - destruct H as [_ H]. now apply H.
  - destruct H as (_ & _ & _ & H).
    destruct (fst c) as [file | src p].
    + destruct H as (_ & Hn & _). rewrite Hn in He. discriminate He.
    + destruct H as (_ & Ho & _). exact Ho.
Qed.

Lemma result_has_original_witness :
  truthy (originalImage (shown (play mounted Sample.sharpened))) = true.
Proof.
  exact (result_has_original Sample.sharpened eq_refl eq_refl).
Defined.

(** X19. Under the same condition the call in flight always belongs to
    what is on screen: an outstanding engine call carries the image the
    session currently holds as its source, so a result never lands on a
    session that moved on, and an outstanding file read finds both
    images null. *)
Theorem in_flight_matches_screen (actions : list Action) (c : Suspended) :
  calm mounted actions = true ->
  In c (awaiting (play mounted actions)) ->
  match fst c with
  | fileToBase64 _ =>
      originalImage (shown (play mounted actions)) = None /\
      enhancedImage (shown (play mounted actions)) = None
  | enhanceImage src _ =>
      sourceImage (shown (play mounted actions)) = Some src
  end.
Proof.
  intros Hcalm Hin.
  pose proof (play_orderly actions mounted mounted_orderly Hcalm) as H.
  unfold orderly in H.
  destruct (awaiting (play mounted actions)) as [|c0 [|c' q]];
    [contradiction Hin | | contradiction].
  destruct Hin as [<- | []].
  destruct H as (_ & _ & _ & H).
  destruct (fst c0) as [file | src p].
  - destruct H as (Ho & Hn & _). auto.
  - destruct H as (Hs & _). exact Hs.
Qed.

Lemma in_flight_matches_screen_witness :
  sourceImage (shown (play mounted Sample.sharpening)) = Some Sample.imageA.
Proof.
  exact (in_flight_matches_screen Sample.sharpening
           (nth 0 (awaiting (play mounted Sample.sharpening))
              (fileToBase64 Sample.photo, fun _ => Ret))
           eq_refl (or_introl eq_refl)).
Defined.

(** ** The uploader, the highlight and the download *)

(** X13. Of the files dropped on the upload area or picked in the file
    dialog only the first is read, whatever the number of files; with an
    empty list, or no list at all, nothing is read and the state is left
    as it is. *)
Theorem uploader_reads_first_file env (s : State)
    (files : option (list File)) :
  handleFileChange handleImageUpload files
    = handleDrop handleImageUpload files /\
  match files with
  | Some (file :: _) =>
      handleDrop handleImageUpload files = handler s (Drop file) /\
      snd (exec env (handleDrop handleImageUpload files) s)
        = [fileToBase64 file]
  | _ => exec env (handleDrop handleImageUpload files) s = (s, [])
  end.
Proof.
  split; [reflexivity|].
  destruct files as [[|file rest]|]; simpl; auto.
  split; [reflexivity|].
  destruct (env (fileToBase64 file)); reflexivity.
Qed.

Lemma activeFilter_after_click env (s : State) (filter : Filter) :
  activeFilter (fst (exec env (handleFilterClick s filter) s))
    = Some (id filter).
Proof.
  unfold handleFilterClick. simpl exec.
  destruct (runEnhancement_frame env s (prompt filter)
              (setCustomPrompt [] (setActiveFilter (Some (id filter)) s)))
    as (_ & _ & H).
  exact H.
Qed.

(** X14. After a click on the [i]-th preset, with or without a source
    image and whatever the engine answers, that preset's button is the
    only highlighted one: the [j]-th button is highlighted exactly when
    [j] is [i].  After a revert or a reset no button is highlighted. *)
Theorem clicked_preset_highlighted env (s : State) (i j : nat)
    (fi fj : Filter) :
  nth_error FILTERS i = Some fi -> nth_error FILTERS j = Some fj ->
  highlighted (fst (exec env (handleFilterClick s fi) s)) fj = Nat.eqb i j /\
  highlighted (fst (exec env handleRevert s)) fj = false /\
  highlighted (fst (exec env handleReset s)) fj = false.
Proof.
  intros Hi Hj. split; [|split; reflexivity].
  unfold highlighted. rewrite activeFilter_after_click.
  do 5 (destruct i as [|i];
        [injection Hi as <-;
         do 5 (destruct j as [|j]; [injection Hj as <-; reflexivity|]);
         destruct j; discriminate Hj|]).
  destruct i; discriminate Hi.
Qed.

Lemma clicked_preset_highlighted_witness :
  highlighted
    (fst (exec Sample.fails (handleFilterClick Sample.fresh Sample.sharpen)
            Sample.fresh))
    Sample.sharpen = true.
Proof.
  exact (proj1 (clicked_preset_highlighted Sample.fails Sample.fresh 1 1
                  Sample.sharpen Sample.sharpen eq_refl eq_refl)).
Defined.

Lemma removeChild_appended (node : nat) (children : list nat) :
  Forall (fun c => c < node) children ->
  removeChild node (children ++ [node]) = children.
Proof.
  intros H. unfold removeChild. rewrite remove_app. simpl.
  destruct (Nat.eq_dec node node) as [_ | Hn]; [|congruence].
  rewrite app_nil_r. apply notin_remove.
  intros Hin. rewrite Forall_forall in H. specialize (H node Hin). lia.
Qed.

(** X15. A download leaves the document as it found it: the link it adds
    to the body is removed again.  With an image in [enhancedImage] it
    starts exactly one download, of that image (never of the original)
    under the name ["enhanced-image.png"]; with none it does nothing.
    Whenever the Download button is enabled there is such an image. *)
Theorem handleDownload_saves_result (s : State) (doc : Document) :
  wellFormed doc ->
  body (handleDownload s doc) = body doc /\
  wellFormed (handleDownload s doc) /\
  downloads (handleDownload s doc) =
    downloads doc ++
    match enhancedImage s with
    | Some image =>
        if truthyStr image then [(image, lit "enhanced-image.png")] else []
    | None => []
    end /\
  (downloadEnabled s = true ->
   exists image, enhancedImage s = Some image /\
     downloads (handleDownload s doc)
       = downloads doc ++ [(image, lit "enhanced-image.png")]).
Proof.
  intros Hwf. unfold handleDownload, downloadEnabled.
  destruct (enhancedImage s) as [[|c image]|]; simpl.
  - rewrite app_nil_r, andb_false_r. repeat split; auto; discriminate.
  - rewrite (removeChild_appended (nextNode doc) (body doc) Hwf).
    repeat split.
    + unfold wellFormed in *. simpl.
      rewrite Forall_forall in *. intros x Hx.
      specialize (Hwf x Hx). lia.
    + intros _. eexists. split; reflexivity.
  - rewrite app_nil_r, andb_false_r. repeat split; auto; discriminate.
Qed.

Lemma handleDownload_saves_result_witness :
  body (handleDownload Sample.edited (mkDocument [0; 1; 2] 3 [])) = [0; 1; 2]
  /\
  downloads (handleDownload Sample.edited (mkDocument [0; 1; 2] 3 []))
    = [(Sample.imageB, lit "enhanced-image.png")].
Proof.
  assert (Hwf : wellFormed (mkDocument [0; 1; 2] 3 [])).
  { unfold wellFormed. simpl. repeat constructor. }
  destruct (handleDownload_saves_result Sample.edited
              (mkDocument [0; 1; 2] 3 []) Hwf) as (H1 & _ & H3 & _).
  split; [exact H1 | exact H3].
Defined.

(** ** How the handlers compose *)

(** X16. Revert and reset compose as expected: a second revert changes
    nothing, a reset absorbs a revert done before or after it, and a
    revert of a session that has no result, no error, no active filter
    and an empty prompt leaves it as it is. *)
Theorem revert_reset_compose env (s : State) :
  let revert x := fst (exec env handleRevert x) in
  let reset x := fst (exec env handleReset x) in
  revert (revert s) = revert s /\
  reset (revert s) = reset s /\
  revert (reset s) = reset s /\
  (enhancedImage s = None -> error s = None -> activeFilter s = None ->
   customPrompt s = [] -> revert s = s).
Proof.
  simpl. repeat split.
  destruct s as [o e l err cp af]. simpl.
  intros -> -> -> ->. reflexivity.
Qed.

Lemma revert_reset_compose_witness :
  fst (exec Sample.succeeds handleRevert Sample.fresh) = Sample.fresh.
Proof.
  exact (proj2 (proj2 (proj2
    (revert_reset_compose Sample.succeeds Sample.fresh)))
      eq_refl eq_refl eq_refl eq_refl).
Defined.

(** X17. The outcome of an upload decides the screen.  After a read that
    gave a non-empty image the editor is shown: every preset button and
    Start Over are enabled, Revert and Download are disabled, and the
    upload area is gone.  After a failed read, or one that gave the empty
    string, the upload area is still there and takes the next file. *)
Theorem upload_outcome_decides_screen env (file next : File) (s : State) :
  let s' := fst (exec env (handleImageUpload file) s) in
  match env (fileToBase64 file) with
  | Resolved (c :: base64) =>
      (forall i, i < List.length FILTERS ->
         enabled s' (ClickFilter i) = true) /\
      enabled s' ClickReset = true /\
      enabled s' ClickRevert = false /\
      downloadEnabled s' = false /\
      enabled s' (Drop next) = false /\
      enabled s' (FileChange next) = false
  | _ =>
      enabled s' (Drop next) = true /\
      enabled s' (FileChange next) = true /\
      (forall i, enabled s' (ClickFilter i) = false)
  end.
Proof.
  intros s'. subst s'. rewrite handleImageUpload_exec.
  destruct (env (fileToBase64 file)) as [[|c base64] | message]; simpl;
    auto.
  repeat split.
  intros i Hi.
  do 5 (destruct i as [|i]; [reflexivity|]).
  simpl in Hi. lia.
Qed.

Lemma upload_outcome_decides_screen_witness :
  enabled
    (fst (exec Sample.succeeds (handleImageUpload Sample.photo) initialState))
    (ClickFilter 4) = true /\
  enabled
    (fst (exec Sample.fails (handleImageUpload Sample.photo) initialState))
    (Drop Sample.photo) = true.
Proof.
  split.
  - exact (proj1 (upload_outcome_decides_screen Sample.succeeds Sample.photo
                    Sample.photo initialState) 4 (le_n 5)).
  - exact (proj1 (upload_outcome_decides_screen Sample.fails Sample.photo
                    Sample.photo initialState)).
Defined.

(** X18. Only an upload or a reset ever writes [originalImage]: the
    handler of every other event, run on any session and whatever the
    engine answers, leaves it as it is. *)
Theorem original_written_by_upload_and_reset_only env (s : State)
    (ev : Event) :
  match ev with
  | Drop _ | FileChange _ | ClickReset => True
  | _ => originalImage (fst (exec env (handler s ev) s)) = originalImage s
  end.
Proof.
  destruct ev as [file | file | i | text | | |]; try exact I; simpl.
  - destruct (nth_error FILTERS i) as [filter|]; [|reflexivity].
    exact (proj1 (runEnhancement_frame env s (prompt filter)
                    (setCustomPrompt []
                       (setActiveFilter (Some (id filter)) s)))).
  - reflexivity.
  - unfold handleCustomEnhance.
    destruct (truthyStr (trim (customPrompt s))); [|reflexivity].
    exact (proj1 (runEnhancement_frame env s (customPrompt s)
                    (setActiveFilter None s))).
  - reflexivity.
Qed.

(** ** Progress bar *)

Module ProgressFacts.

Import ProgressBar.
Local Open Scope float_scope.
Local Set Warnings "-inexact-float".

Lemma loading_start (pb : PB) : loading 0 pb = mkPB 0 true.
Proof. reflexivity. Qed.

Lemma loading_independent (n : nat) (pb : PB) : loading n pb = loading n mount.
Proof. reflexivity. Qed.

(** A disarmed timer changes nothing. *)
Lemma ticks_disarmed (n : nat) (v : float) :
  ticks n (mkPB v false) = mkPB v false.
Proof.
  induction n as [|n IH]; simpl; [reflexivity|].
  rewrite IH. reflexivity.
Qed.

Lemma ticks_add (n m : nat) (pb : PB) :
  ticks (n + m) pb = ticks n (ticks m pb).
Proof.
  induction n as [|n IH]; simpl; [reflexivity|].
  now rewrite IH.
Qed.

(** The thirtieth period finds the value at or above 95, stores 95 and
    clears the timer. *)
Lemma loading_30 : loading 30 mount = mkPB 95 false.
Proof. vm_compute. reflexivity. Qed.

Lemma loading_frozen (n : nat) (pb : PB) :
  loading (n + 30) pb = mkPB 95 false.
Proof.
  unfold loading. rewrite ticks_add.
  change (ticks 30 (effect true pb)) with (loading 30 mount).
  rewrite loading_30. apply ticks_disarmed.
Qed.

Lemma loading_below_100_early :
  forallb (fun n => progress (loading n mount) <? 100) (seq 0 30) = true.
Proof. vm_compute. reflexivity. Qed.

Lemma loading_below_100 (n : nat) (pb : PB) :
  (progress (loading n pb) <? 100) = true.
Proof.
  rewrite loading_independent.
  destruct (Nat.lt_ge_cases n 30) as [Hlt | Hge].
  - pose proof loading_below_100_early as H.
    rewrite forallb_forall in H. apply H.
    apply in_seq. lia.
  - replace n with (n - 30 + 30)%nat by lia.
    rewrite loading_frozen. reflexivity.
Qed.

(** C8, as the code has it.  The value is 0 when loading starts.  A period
    that finds the value below 95 replaces it by
    [prev + (100 - prev) * 0.1]; over the first 29 periods each value is
    strictly above the one before.  The period that finds it at or above
    95 stores exactly 95 and clears the timer, so from the thirtieth period
    on the value is 95 and no longer moves.  At every period of loading it
    is below 100.  When loading ends the value is set to exactly 100 and
    later periods leave it there. *)
Theorem progress_trajectory (pb : PB) :
  progress (loading 0 pb) = 0 /\
  (forall prev, (95 <=? prev) = false ->
     update prev = mkPB (prev + (100 - prev) * 0.1) true) /\
  (forall prev, (95 <=? prev) = true -> update prev = mkPB 95 false) /\
  forallb (fun n => progress (loading n pb) <? progress (loading (S n) pb))
    (seq 0 29) = true /\
  (forall n, loading (n + 30) pb = mkPB 95 false) /\
  (forall n, (progress (loading n pb) <? 100) = true) /\
  (forall n, ticks n (effect false pb) = mkPB 100 false).
Proof.
  split; [reflexivity|].
  split; [intros prev H; unfold update; now rewrite H|].
  split; [intros prev H; unfold update; now rewrite H|].
  split; [vm_compute; reflexivity|].
  split; [intros n; apply loading_frozen|].
  split; [intros n; apply loading_below_100|].
  intros n. apply ticks_disarmed.
Qed.

Lemma progress_trajectory_witness :
  update 0 = mkPB (0 + (100 - 0) * 0.1) true /\
  update 95 = mkPB 95 false.
Proof.
  split.
  - exact (proj1 (proj2 (progress_trajectory mount)) 0 eq_refl).
  - exact (proj1 (proj2 (proj2 (progress_trajectory mount))) 95 eq_refl).
Defined.

(** After 30 periods the value is 95, not below it: the ceiling is
    reached. *)
Lemma progress_reaches_95 :
  ~ (forall n, (progress (loading n mount) <? 95) = true).
Proof.
  intros H. specialize (H 30%nat).
  rewrite loading_30 in H. vm_compute in H. discriminate H.
Qed.

(** The period before, the value stood above 95, and the thirtieth period
    lowered it. *)
Lemma progress_29_30 :
  (95 <? progress (loading 29 mount)) = true /\
  (progress (loading 30 mount) <? progress (loading 29 mount)) = true.
Proof. split; vm_compute; reflexivity. Qed.

End ProgressFacts.
